(** * The example resource server of lmindwarel/oidc

    A shallow embedding of [example/client/api/api.go]: the three HTTP
    handlers registered by [main] and the helper [checkToken], together with
    the small part of [net/http], [strings] and [chi] they call.

    Go strings are byte strings; they are modelled by [string], whose
    characters are bytes.  A handler mutates its [http.ResponseWriter] and
    performs at most one outbound introspection call; both effects are
    threaded explicitly through a value of type [Effects]. *)

From Stdlib Require Import ZArith String Ascii List Bool Lia.
From stdpp Require Import base option gmap strings.

Local Open Scope Z_scope.
Local Open Scope string_scope.

(** ** Package [strings] *)

Module GoStrings.

(** [s[n:]] for [n <= len(s)]. *)
Definition slice_from (n : nat) (s : string) : string :=
  String.substring n (String.length s - n) s.

(** [strings.HasPrefix(s, prefix)]. *)
Definition HasPrefix (s prefix : string) : bool := String.prefix prefix s.

(** [strings.TrimPrefix(s, prefix)]: [s] without the leading [prefix], or
    [s] itself when it does not start with [prefix]. *)
Definition TrimPrefix (s prefix : string) : string :=
  if HasPrefix s prefix then slice_from (String.length prefix) s else s.

(** [strings.Contains(s, substr)]. *)
Fixpoint Contains (s substr : string) : bool :=
  HasPrefix s substr
  || match s with
     | EmptyString => false
     | String _ s' => Contains s' substr
     end.

End GoStrings.

(** ** Package [net/http] *)

Module http.

Definition StatusOK : Z := 200.
Definition StatusUnauthorized : Z := 401.
Definition StatusForbidden : Z := 403.
Definition StatusNotFound : Z := 404.
Definition StatusInternalServerError : Z := 500.

(** [http.Header]: canonical header name to its values. *)
Abbreviation Header := (gmap string (list string)).

Definition upper (c : ascii) : ascii :=
  let n := nat_of_ascii c in
  if (97 <=? n)%nat && (n <=? 122)%nat then ascii_of_nat (n - 32) else c.

Definition lower (c : ascii) : ascii :=
  let n := nat_of_ascii c in
  if (65 <=? n)%nat && (n <=? 90)%nat then ascii_of_nat (n + 32) else c.

Fixpoint canonical (up : bool) (s : string) : string :=
  match s with
  | EmptyString => EmptyString
  | String c s' =>
      String (if up then upper c else lower c)
             (canonical (Ascii.eqb c "-") s')
  end.

(** [textproto.CanonicalMIMEHeaderKey], for names made of letters, digits
    and hyphens: the first letter and every letter after a hyphen in upper
    case, the others in lower case. *)
Definition CanonicalMIMEHeaderKey (s : string) : string := canonical true s.

(** [Header.Get]: the first value stored under the canonical form of the
    key, the empty string when there is none. *)
Definition Header_Get (h : Header) (key : string) : string :=
  match h !! CanonicalMIMEHeaderKey key with
  | Some (v :: _) => v
  | _ => ""
  end.

Definition Header_Set (h : Header) (key value : string) : Header :=
  <[key := [value]]> h.

Definition Header_Del (h : Header) (key : string) : Header :=
  delete key h.

(** The state behind an [http.ResponseWriter]. *)
Record ResponseWriter := mkResponseWriter {
  header : Header;
  wroteHeader : bool;
  status : Z;
  body : string
}.

Definition newResponseWriter : ResponseWriter :=
  {| header := ∅; wroteHeader := false; status := 0; body := "" |}.

(** [w.WriteHeader(code)]: only the first call sets the status. *)
Definition WriteHeader (w : ResponseWriter) (code : Z) : ResponseWriter :=
  if wroteHeader w then w
  else {| header := header w; wroteHeader := true;
          status := code; body := body w |}.

(** [w.Write(data)]: an implicit [WriteHeader(StatusOK)] first when no
    header was written yet. *)
Definition Write (w : ResponseWriter) (data : string) : ResponseWriter :=
  let w := WriteHeader w StatusOK in
  {| header := header w; wroteHeader := wroteHeader w;
     status := status w; body := body w +:+ data |}.

Definition setHeader (w : ResponseWriter) (h : Header) : ResponseWriter :=
  {| header := h; wroteHeader := wroteHeader w;
     status := status w; body := body w |}.

(** The line feed [fmt.Fprintln] ends its output with. *)
Definition newline : string := String (ascii_of_nat 10) "".

(** [http.Error(w, error, code)]: a plain-text reply, the error text being
    printed with [fmt.Fprintln]. *)
Definition Error (w : ResponseWriter) (error : string) (code : Z)
  : ResponseWriter :=
  let h := header w in
  let h := Header_Del h "Content-Length" in
  let h := Header_Set h "Content-Type" "text/plain; charset=utf-8" in
  let h := Header_Set h "X-Content-Type-Options" "nosniff" in
  let w := setHeader w h in
  let w := WriteHeader w code in
  let line := error +:+ newline in Write w line.

(** What the server sends once the handler has returned: a handler that
    never wrote a header gets [StatusOK]. *)
Definition finish (w : ResponseWriter) : ResponseWriter :=
  WriteHeader w StatusOK.

End http.

(** ** Package [oidc] *)

Module oidc.

(** Modelled from the spec: the constant [oidc.PrefixBearer] is declared in
    [pkg/oidc], outside the example's own file; section 4.1 gives
    the bearer prefix as the literal [Bearer] followed by one space. *)
Definition PrefixBearer : string := "Bearer ".

(** A Go value of type [any] as the JSON decoder produces it. *)
#[warnings="-register-all"]
Inductive any : Type :=
| AnyNil
| AnyBool (b : bool)
| AnyFloat64 (bits : Z)
| AnyString (s : string)
| AnySlice (l : list any)
| AnyMap (m : list (string * any)).

(** Modelled from the spec: the struct [oidc.IntrospectionResponse] is
    declared in [pkg/oidc]; section 3 gives it the attributes [active] and
    [claims], a mapping from claim name to an arbitrarily typed value. *)
Record IntrospectionResponse := mkIntrospectionResponse {
  Active : bool;
  Claims : gmap string any
}.

(** [m[key]] on a [map[string]any]: the nil interface when [key] is not
    in the map. *)
Definition index (m : gmap string any) (key : string) : any :=
  default AnyNil (m !! key).

(** The comma-ok type assertion [v.(string)]. *)
Definition assert_string (v : any) : string * bool :=
  match v with
  | AnyString s => (s, true)
  | _ => ("", false)
  end.

End oidc.

(** A Go [error], observed through the text of its [Error()] method, and the
    two-valued return [(value, err)]. *)
Definition error : Type := string.

Inductive result (A : Type) : Type :=
| Ok (a : A)
| Err (err : error).
Arguments Ok {A} a.
Arguments Err {A} err.

(** ** Package [rs] *)

Module rs.

(** Modelled from the spec: [rs.Introspect] and the resource server it
    queries live in [pkg/client/rs].  Section 4.2: given a token, the
    client returns either an introspection result, [active] and [claims]
    exactly as the authority returned them, or a failure.  A resource
    server is represented by what introspection answers for each token. *)
Definition ResourceServer : Type := string -> result oidc.IntrospectionResponse.

Definition Introspect (provider : ResourceServer) (token : string)
  : result oidc.IntrospectionResponse :=
  provider token.

End rs.

(** ** Package [chi] *)

Module chi.

(** An incoming request after routing: its header, the route pattern the
    router matched it against and the values bound to the placeholders of
    that pattern. *)
Record Request := mkRequest {
  Header : http.Header;
  RoutePattern : string;
  URLParams : gmap string string
}.

(** [chi.URLParam(r, key)]: empty when the pattern has no such
    placeholder. *)
Definition URLParam (r : Request) (key : string) : string :=
  default "" (URLParams r !! key).

End chi.

(** ** Package [main] *)

Import GoStrings.

Definition publicURL : string := "/public".
Definition protectedURL : string := "/protected".
Definition protectedClaimURL : string := "/protected/{claim}/{value}".

(** What a handler has done when it returns: the state of its response
    writer and the tokens it sent to the introspection endpoint, in order. *)
Record Effects := mkEffects {
  writer : http.ResponseWriter;
  introspected : list string
}.

(** [checkToken(w, r)], returning the writer next to [(ok, token)]. *)
Definition checkToken (w : http.ResponseWriter) (r : chi.Request)
  : http.ResponseWriter * (bool * string) :=
  let auth := http.Header_Get (chi.Header r) "authorization" in
  if String.eqb auth "" then
    (http.Error w "auth header missing" http.StatusUnauthorized, (false, ""))
  else if negb (HasPrefix auth oidc.PrefixBearer) then
    (http.Error w "invalid header" http.StatusUnauthorized, (false, ""))
  else
    (w, (true, TrimPrefix auth oidc.PrefixBearer)).

Section Handlers.

(** The resource server built at start-up, [encoding/json]'s [Marshal] on
    introspection responses, and the text of [time.Now()] read while the
    request is served. *)
Variable provider : rs.ResourceServer.
Variable json_Marshal : oidc.IntrospectionResponse -> result string.
Variable now : string.

(** The handler of [publicURL]. *)
Definition publicHandler (w : http.ResponseWriter) (r : chi.Request) : Effects :=
  {| writer := http.Write w ("OK " +:+ now); introspected := [] |}.

(** The handler of [protectedURL]. *)
Definition protectedHandler (w : http.ResponseWriter) (r : chi.Request) : Effects :=
  let '(w, (ok, token)) := checkToken w r in
  if negb ok then {| writer := w; introspected := [] |}
  else
    match rs.Introspect provider token with
    | Err err =>
        {| writer := http.Error w err http.StatusForbidden;
           introspected := [token] |}
    | Ok resp =>
        match json_Marshal resp with
        | Err err =>
            {| writer := http.Error w err http.StatusInternalServerError;
               introspected := [token] |}
        | Ok data =>
            {| writer := http.Write w data; introspected := [token] |}
        end
    end.

(** The handler of [protectedClaimURL]. *)
Definition protectedClaimHandler (w : http.ResponseWriter) (r : chi.Request) : Effects :=
  let '(w, (ok, token)) := checkToken w r in
  if negb ok then {| writer := w; introspected := [] |}
  else
    match rs.Introspect provider token with
    | Err err =>
        {| writer := http.Error w err http.StatusForbidden;
           introspected := [token] |}
    | Ok resp =>
        let requestedClaim := chi.URLParam r "claim" in
        let requestedValue := chi.URLParam r "value" in
        let '(value, ok) :=
          oidc.assert_string (oidc.index (oidc.Claims resp) requestedClaim) in
        if negb ok || String.eqb value "" || negb (String.eqb value requestedValue)
        then
          {| writer := http.Error w "claim does not match" http.StatusForbidden;
             introspected := [token] |}
        else
          {| writer := http.Write w ("authorized with value " +:+ value);
             introspected := [token] |}
    end.

(** The router of [main]: the handler registered for the matched pattern,
    [http.NotFound] when no pattern matched. *)
Definition router (w : http.ResponseWriter) (r : chi.Request) : Effects :=
  if String.eqb (chi.RoutePattern r) publicURL then publicHandler w r
  else if String.eqb (chi.RoutePattern r) protectedURL then protectedHandler w r
  else if String.eqb (chi.RoutePattern r) protectedClaimURL
       then protectedClaimHandler w r
  else {| writer := http.Error w "404 page not found" http.StatusNotFound;
          introspected := [] |}.

(** One request served: a fresh response writer, the routed handler, then
    the reply is completed. *)
Definition serve (r : chi.Request) : Effects :=
  let e := router http.newResponseWriter r in
  {| writer := http.finish (writer e); introspected := introspected e |}.

End Handlers.

(** The status and body of the reply to a request. *)
Definition reply_status (e : Effects) : Z := http.status (writer e).
Definition reply_body (e : Effects) : string := http.body (writer e).

(** ** Vocabulary of the statements *)

(** *** Requests and replies *)

(** The value of the authorization header as [checkToken] reads it. *)
Definition authorization (r : chi.Request) : string :=
  http.Header_Get (chi.Header r) "authorization".

(** The two routes that ask for a token. *)
Definition protected_route (r : chi.Request) : Prop :=
  chi.RoutePattern r = protectedURL \/ chi.RoutePattern r = protectedClaimURL.

(** The reply of the claim route once the token has been introspected: what
    lines 77 to 85 of the handler do with the response. *)
Definition claim_outcome (resp : oidc.IntrospectionResponse)
    (requestedClaim requestedValue token : string) : Effects :=
  let '(value, ok) :=
    oidc.assert_string (oidc.index (oidc.Claims resp) requestedClaim) in
  if negb ok || String.eqb value "" || negb (String.eqb value requestedValue)
  then {| writer := http.finish (http.Error http.newResponseWriter
                                   "claim does not match" http.StatusForbidden);
          introspected := [token] |}
  else {| writer := http.finish (http.Write http.newResponseWriter
                                   ("authorized with value " +:+ value));
          introspected := [token] |}.

(** The reply 403 whose body is the line [claim does not match]: the text
    given to [http.Error], ended by the line feed it prints after it. *)
Definition claim_refused (e : Effects) : Prop :=
  reply_status e = http.StatusForbidden
  /\ reply_body e = "claim does not match" +:+ http.newline.

(** The reply keeps the text [authority_body] out of its body. *)
Definition withholds (e : Effects) (authority_body : string) : Prop :=
  Contains (reply_body e) authority_body = false.

(** The request was routed to one of the two handlers that call
    [checkToken]. *)
Definition asks_for_token (r : chi.Request) : bool :=
  String.eqb (chi.RoutePattern r) protectedURL
  || String.eqb (chi.RoutePattern r) protectedClaimURL.

(** The text [checkToken] rejects a header with. *)
Definition rejection_text (auth : string) : string :=
  if String.eqb auth "" then "auth header missing" else "invalid header".

(** The two shapes a finished reply has: an error text sent with
    [http.Error], or data sent with [w.Write]; each with the introspection
    calls made on the way. *)
Definition error_reply (msg : string) (code : Z) (calls : list string) : Effects :=
  {| writer := http.finish (http.Error http.newResponseWriter msg code);
     introspected := calls |}.

Definition data_reply (data : string) (calls : list string) : Effects :=
  {| writer := http.finish (http.Write http.newResponseWriter data);
     introspected := calls |}.

(** The requested claim of [resp] is a non-empty string equal to the
    requested value. *)
Definition claim_matches (resp : oidc.IntrospectionResponse)
    (claim value : string) : Prop :=
  oidc.Claims resp !! claim = Some (oidc.AnyString value) /\ value <> "".

(** *** Concrete inputs *)

(** A request for [pattern] carrying the given authorization header values
    and placeholder bindings. *)
Definition request (auth : list string) (pattern : string)
    (params : list (string * string)) : chi.Request :=
  {| chi.Header := {[ "Authorization" := auth ]};
     chi.RoutePattern := pattern;
     chi.URLParams := list_to_map params |}.

(** A resource server that answers every token with [answer], and a
    marshaller that renders every response as [text]. *)
Definition always (answer : result oidc.IntrospectionResponse) : rs.ResourceServer :=
  fun _ => answer.

Definition marshals_to (text : string) : oidc.IntrospectionResponse -> result string :=
  fun _ => Ok text.

(** The introspection result of the examples: an active token whose only
    claim is [username]. *)
Definition user_response (name : oidc.any) : oidc.IntrospectionResponse :=
  {| oidc.Active := true; oidc.Claims := {[ "username" := name ]} |}.

Definition claim_request (auth claim value : string) : chi.Request :=
  request [auth] protectedClaimURL [("claim", claim); ("value", value)].

(** A resource server whose introspection fails and reports the failure the
    way an HTTP helper does for a reply that is not 200: the status line
    followed by the body the authority sent. *)
Definition failing_with (status_line authority_body : string) : rs.ResourceServer :=
  always (Err ("http status not ok: " +:+ status_line +:+ " " +:+ authority_body)).

(** *** Failure kinds of the claim matcher *)

(** The four ways a claim can fail to match, as section 4.3 of the
    specification names them. *)
Inductive MatchFailure : Type :=
| ClaimAbsent
| ClaimTypeMismatch
| ClaimEmpty
| ClaimValueMismatch.

(** The matcher in the specification's words: the kind of failure, or
    [None] when the claim matches. *)
Definition matcher_as_specified (claims : gmap string oidc.any)
    (claim value : string) : option MatchFailure :=
  match claims !! claim with
  | None => Some ClaimAbsent
  | Some (oidc.AnyString s) =>
      if String.eqb s "" then Some ClaimEmpty
      else if String.eqb s value then None
      else Some ClaimValueMismatch
  | Some _ => Some ClaimTypeMismatch
  end.

(** What the handler itself computes about the claim (line 80): the pair
    [(value, ok)] of the type assertion on the looked-up claim. *)
Definition type_assertion (claims : gmap string oidc.any) (claim : string)
  : string * bool :=
  oidc.assert_string (oidc.index claims claim).

(** Two failure kinds are told apart internally when some inputs of the one
    kind and of the other leave the handler with different pairs. *)
Definition told_apart (k1 k2 : MatchFailure) : Prop :=
  exists claims1 claim1 value1 claims2 claim2 value2,
    matcher_as_specified claims1 claim1 value1 = Some k1
    /\ matcher_as_specified claims2 claim2 value2 = Some k2
    /\ type_assertion claims1 claim1 <> type_assertion claims2 claim2.

(** The kinds on which the type assertion itself fails. *)
Definition assertion_fails (k : MatchFailure) : bool :=
  match k with
  | ClaimAbsent | ClaimTypeMismatch => true
  | ClaimEmpty | ClaimValueMismatch => false
  end.

(** One input of each kind, for the claim [c] and the requested value [v]. *)
Definition sample (k : MatchFailure) : gmap string oidc.any :=
  match k with
  | ClaimAbsent => ∅
  | ClaimTypeMismatch => {[ "c" := oidc.AnyBool true ]}
  | ClaimEmpty => {[ "c" := oidc.AnyString "" ]}
  | ClaimValueMismatch => {[ "c" := oidc.AnyString "x" ]}
  end.

(** *** The server over time *)

(** What surrounds the serving of one request: the answers introspection
    gives at that time and the reading of the clock. *)
Record Moment := mkMoment {
  answers : rs.ResourceServer;
  clock : string
}.

(** [http.ListenAndServe(lis, router)] on the requests that come in, in
    order: each one is served with a response writer of its own. *)
Fixpoint ListenAndServe
    (json_Marshal : oidc.IntrospectionResponse -> result string)
    (incoming : list (Moment * chi.Request)) : list Effects :=
  match incoming with
  | [] => []
  | (m, r) :: rest =>
      serve (answers m) json_Marshal (clock m) r
      :: ListenAndServe json_Marshal rest
  end.

(** * Properties *)

(** ** Strings *)

Lemma HasPrefix_app (p t : string) : HasPrefix (p +:+ t) p = true.
Proof.
  unfold HasPrefix. induction p as [|c p IH]; simpl.
  - now destruct t.
  - destruct (ascii_dec c c) as [_|Hne]; [exact IH | now elim Hne].
Qed.

Lemma HasPrefix_inv (s p : string) :
  HasPrefix s p = true -> exists t, s = p +:+ t.
Proof.
  unfold HasPrefix. revert s. induction p as [|c p IH]; intros s Hp.
  - now exists s.
  - destruct s as [|d s]; simpl in Hp; [discriminate|].
    destruct (ascii_dec c d) as [->|_]; [|discriminate].
    destruct (IH s Hp) as [t ->]. now exists t.
Qed.

Lemma substring_all (s : string) : String.substring 0 (String.length s) s = s.
Proof. induction s as [|c s IH]; simpl; [reflexivity | now rewrite IH]. Qed.

Lemma slice_from_app (p t : string) : slice_from (String.length p) (p +:+ t) = t.
Proof.
  unfold slice_from. induction p as [|c p IH]; simpl.
  - rewrite Nat.sub_0_r. apply substring_all.
  - exact IH.
Qed.

Lemma TrimPrefix_app (p t : string) : TrimPrefix (p +:+ t) p = t.
Proof. unfold TrimPrefix. rewrite HasPrefix_app. apply slice_from_app. Qed.

Lemma String_eqb_false (a b : string) : a <> b -> String.eqb a b = false.
Proof. intros H. now apply String.eqb_neq. Qed.

(** ** The response writer *)

(** On a writer that has sent nothing, [http.Error] fixes the status and
    makes the body the error text followed by a line feed. *)
Lemma Error_fresh (h : http.Header) (msg : string) (code : Z) :
  let w := http.Error (http.mkResponseWriter h false 0 "") msg code in
  http.wroteHeader w = true /\ http.status w = code
  /\ http.body w = msg +:+ http.newline
  /\ http.header w !! "Content-Type" = Some ["text/plain; charset=utf-8"].
Proof.
  cbv zeta. repeat split. simpl.
  unfold http.Header_Set. rewrite lookup_insert_ne by discriminate.
  apply lookup_insert_eq.
Qed.

Lemma Write_fresh (h : http.Header) (data : string) :
  let w := http.Write (http.mkResponseWriter h false 0 "") data in
  http.wroteHeader w = true /\ http.status w = http.StatusOK
  /\ http.body w = data.
Proof. cbv zeta. repeat split. Qed.

(** ** [checkToken] *)

Lemma checkToken_missing (w : http.ResponseWriter) (r : chi.Request) :
  authorization r = "" ->
  checkToken w r =
    (http.Error w "auth header missing" http.StatusUnauthorized, (false, "")).
Proof. unfold authorization, checkToken. now intros ->. Qed.

Lemma checkToken_invalid (w : http.ResponseWriter) (r : chi.Request) :
  authorization r <> "" ->
  HasPrefix (authorization r) oidc.PrefixBearer = false ->
  checkToken w r =
    (http.Error w "invalid header" http.StatusUnauthorized, (false, "")).
Proof.
  unfold authorization, checkToken. intros Hne Hp.
  rewrite (String_eqb_false _ _ Hne). now rewrite Hp.
Qed.

Lemma checkToken_bearer (w : http.ResponseWriter) (r : chi.Request) (token : string) :
  authorization r = oidc.PrefixBearer +:+ token ->
  checkToken w r = (w, (true, token)).
Proof.
  unfold authorization, checkToken. intros ->.
  rewrite HasPrefix_app, TrimPrefix_app. reflexivity.
Qed.

(** ** Routing *)

Section Routing.

Variable provider : rs.ResourceServer.
Variable json_Marshal : oidc.IntrospectionResponse -> result string.
Variable now : string.

Lemma router_public (w : http.ResponseWriter) (r : chi.Request) :
  chi.RoutePattern r = publicURL ->
  router provider json_Marshal now w r = publicHandler now w r.
Proof. unfold router. now intros ->. Qed.

Lemma router_protected (w : http.ResponseWriter) (r : chi.Request) :
  chi.RoutePattern r = protectedURL ->
  router provider json_Marshal now w r =
  protectedHandler provider json_Marshal w r.
Proof. unfold router. now intros ->. Qed.

Lemma router_protectedClaim (w : http.ResponseWriter) (r : chi.Request) :
  chi.RoutePattern r = protectedClaimURL ->
  router provider json_Marshal now w r = protectedClaimHandler provider w r.
Proof. unfold router. now intros ->. Qed.

End Routing.

(** Reduce [serve] on a request whose route is known by [Hroute] to the
    body of the handler registered for it. *)
Ltac enter_handler Hroute :=
  unfold serve;
  first [ rewrite (router_public _ _ _ _ _ Hroute); unfold publicHandler
        | rewrite (router_protected _ _ _ _ _ Hroute); unfold protectedHandler
        | rewrite (router_protectedClaim _ _ _ _ _ Hroute);
          unfold protectedClaimHandler ].

(** ** The public route *)

(** C8: every request routed to [/public], whatever its headers, is answered
    with status 200 and the body [OK ] followed by the text of the current
    time; the handler neither reads the authorization header nor calls the
    introspection endpoint. *)
Theorem public_always_ok
    (provider : rs.ResourceServer)
    (json_Marshal : oidc.IntrospectionResponse -> result string)
    (now : string) (r : chi.Request) :
  chi.RoutePattern r = publicURL ->
  let e := serve provider json_Marshal now r in
  reply_status e = http.StatusOK
  /\ reply_body e = "OK " +:+ now
  /\ introspected e = [].
Proof.
  intros Hroute. cbv zeta. enter_handler Hroute. repeat split.
Qed.

Lemma public_always_ok_witness :
  let r := request ["Basic dXNlcg=="] publicURL [] in
  let e := serve (always (Err "unreachable")) (marshals_to "{}")
                 "2024-05-01 10:00:00 +0000 UTC" r in
  chi.RoutePattern r = publicURL
  /\ reply_status e = 200
  /\ reply_body e = "OK 2024-05-01 10:00:00 +0000 UTC"
  /\ introspected e = [].
Proof.
  split; [reflexivity|].
  apply (public_always_ok (always (Err "unreachable")) (marshals_to "{}")
           "2024-05-01 10:00:00 +0000 UTC"
           (request ["Basic dXNlcg=="] publicURL [])).
  reflexivity.
Defined.

(** ** The token extractor *)

(** C3: on both protected routes an empty authorization header is answered
    with 401 and the text [auth header missing]; a non-empty one that does
    not start with [Bearer ] (compared byte for byte) is answered with 401
    and the text [invalid header].  The emptiness test comes first, so the
    empty header gets the first text although it lacks the prefix as well.
    In both cases no introspection call is made. *)
Theorem missing_or_malformed_header_unauthorized
    (provider : rs.ResourceServer)
    (json_Marshal : oidc.IntrospectionResponse -> result string)
    (now : string) (r : chi.Request) :
  protected_route r ->
  authorization r = "" \/ HasPrefix (authorization r) "Bearer " = false ->
  let e := serve provider json_Marshal now r in
  reply_status e = http.StatusUnauthorized
  /\ reply_body e =
       (if String.eqb (authorization r) "" then "auth header missing"
        else "invalid header") +:+ http.newline
  /\ introspected e = [].
Proof.
  intros Hroute Hauth. cbv zeta.
  destruct (String.eqb_spec (authorization r) "") as [Hempty|Hne].
  - destruct Hroute as [Hroute|Hroute]; enter_handler Hroute;
      rewrite (checkToken_missing _ _ Hempty); repeat split.
  - destruct Hauth as [Hempty|Hprefix]; [contradiction|].
    destruct Hroute as [Hroute|Hroute]; enter_handler Hroute;
      rewrite (checkToken_invalid _ _ Hne Hprefix); repeat split.
Qed.

Lemma missing_or_malformed_header_unauthorized_witness :
  let active := Ok {| oidc.Active := true; oidc.Claims := ∅ |} in
  let none := request [] protectedURL [] in
  let lower := request ["bearer abc"] protectedClaimURL
                 [("claim", "username"); ("value", "alice")] in
  (reply_status (serve (always active) (marshals_to "{}") "" none) = 401
   /\ reply_body (serve (always active) (marshals_to "{}") "" none)
      = "auth header missing" +:+ http.newline
   /\ introspected (serve (always active) (marshals_to "{}") "" none) = [])
  /\
  (reply_status (serve (always active) (marshals_to "{}") "" lower) = 401
   /\ reply_body (serve (always active) (marshals_to "{}") "" lower)
      = "invalid header" +:+ http.newline
   /\ introspected (serve (always active) (marshals_to "{}") "" lower) = []).
Proof.
  cbv zeta. split.
  - apply (missing_or_malformed_header_unauthorized
             (always (Ok {| oidc.Active := true; oidc.Claims := ∅ |}))
             (marshals_to "{}") "" (request [] protectedURL [])).
    + left. reflexivity.
    + left. reflexivity.
  - apply (missing_or_malformed_header_unauthorized
             (always (Ok {| oidc.Active := true; oidc.Claims := ∅ |}))
             (marshals_to "{}") ""
             (request ["bearer abc"] protectedClaimURL
                [("claim", "username"); ("value", "alice")])).
    + right. reflexivity.
    + right. reflexivity.
Defined.

(** C7: when the authorization header starts with [Bearer ], [checkToken]
    succeeds, writes nothing, and returns the rest of the header exactly as
    it stands (nothing trimmed; the empty string when the header is just the
    prefix).  On both protected routes that remainder is the one token sent
    to the introspection endpoint. *)
Theorem bearer_token_extracted
    (provider : rs.ResourceServer)
    (json_Marshal : oidc.IntrospectionResponse -> result string)
    (now : string) (r : chi.Request) (token : string) :
  authorization r = "Bearer " +:+ token ->
  (forall w, checkToken w r = (w, (true, token)))
  /\ (protected_route r ->
      introspected (serve provider json_Marshal now r) = [token]).
Proof.
  intros Hauth. split.
  - intros w. now apply checkToken_bearer.
  - intros [Hroute|Hroute]; enter_handler Hroute;
      rewrite (checkToken_bearer _ _ _ Hauth); simpl negb; cbv iota;
      unfold rs.Introspect.
    + destruct (provider token) as [resp|err]; [|reflexivity].
      destruct (json_Marshal resp); reflexivity.
    + destruct (provider token) as [resp|err]; [|reflexivity].
      destruct (oidc.assert_string _) as [value ok].
      destruct (_ || _); reflexivity.
Qed.

Lemma bearer_token_extracted_witness :
  let inactive := Ok {| oidc.Active := false; oidc.Claims := ∅ |} in
  let bare := request ["Bearer "] protectedURL [] in
  let padded := request ["Bearer  a b "] protectedClaimURL [] in
  (checkToken http.newResponseWriter bare = (http.newResponseWriter, (true, ""))
   /\ introspected (serve (always inactive) (marshals_to "{}") "" bare) = [""])
  /\
  (checkToken http.newResponseWriter padded
     = (http.newResponseWriter, (true, " a b "))
   /\ introspected (serve (always inactive) (marshals_to "{}") "" padded)
      = [" a b "]).
Proof.
  cbv zeta. split.
  - destruct (bearer_token_extracted
                (always (Ok {| oidc.Active := false; oidc.Claims := ∅ |}))
                (marshals_to "{}") "" (request ["Bearer "] protectedURL []) ""
                eq_refl) as [Hcheck Hcall].
    split; [apply Hcheck | apply Hcall; left; reflexivity].
  - destruct (bearer_token_extracted
                (always (Ok {| oidc.Active := false; oidc.Claims := ∅ |}))
                (marshals_to "{}") ""
                (request ["Bearer  a b "] protectedClaimURL []) " a b "
                eq_refl) as [Hcheck Hcall].
    split; [apply Hcheck | apply Hcall; right; reflexivity].
Defined.

(** ** The claim matcher *)

Lemma serve_claim_introspected
    (provider : rs.ResourceServer)
    (json_Marshal : oidc.IntrospectionResponse -> result string)
    (now : string) (r : chi.Request) (token : string)
    (resp : oidc.IntrospectionResponse) :
  chi.RoutePattern r = protectedClaimURL ->
  authorization r = oidc.PrefixBearer +:+ token ->
  provider token = Ok resp ->
  serve provider json_Marshal now r =
  claim_outcome resp (chi.URLParam r "claim") (chi.URLParam r "value") token.
Proof.
  intros Hroute Hauth Hresp. enter_handler Hroute.
  rewrite (checkToken_bearer _ _ _ Hauth). simpl negb. cbv iota.
  unfold rs.Introspect, claim_outcome. rewrite Hresp.
  destruct (oidc.assert_string _) as [value ok].
  destruct (_ || _); reflexivity.
Qed.

Lemma claim_outcome_no_string (resp : oidc.IntrospectionResponse)
    (claim value token : string) :
  snd (oidc.assert_string (oidc.index (oidc.Claims resp) claim)) = false ->
  claim_refused (claim_outcome resp claim value token).
Proof.
  unfold claim_outcome. destruct (oidc.assert_string _) as [s ok]. simpl.
  intros ->. split; reflexivity.
Qed.

Lemma claim_outcome_string (resp : oidc.IntrospectionResponse)
    (claim value token s : string) :
  oidc.Claims resp !! claim = Some (oidc.AnyString s) ->
  claim_outcome resp claim value token =
  if String.eqb s "" || negb (String.eqb s value)
  then {| writer := http.finish (http.Error http.newResponseWriter
                                   "claim does not match" http.StatusForbidden);
          introspected := [token] |}
  else {| writer := http.finish (http.Write http.newResponseWriter
                                   ("authorized with value " +:+ s));
          introspected := [token] |}.
Proof.
  intros Hs. unfold claim_outcome, oidc.index. rewrite Hs. reflexivity.
Qed.

(** C2: on the claim route, once the token has been introspected without
    error: a claim that is absent, or present with a value that is not a
    string, or a string different from the requested value, is answered with
    403 and the text [claim does not match] (sent by [http.Error], hence as
    one line); a non-empty string equal to the requested value, byte for
    byte, is answered with 200 and the body [authorized with value ] followed
    by that value. *)
Theorem claim_route_decision
    (provider : rs.ResourceServer)
    (json_Marshal : oidc.IntrospectionResponse -> result string)
    (now : string) (r : chi.Request) (token : string)
    (resp : oidc.IntrospectionResponse) :
  chi.RoutePattern r = protectedClaimURL ->
  authorization r = "Bearer " +:+ token ->
  provider token = Ok resp ->
  let claim := chi.URLParam r "claim" in
  let value := chi.URLParam r "value" in
  let e := serve provider json_Marshal now r in
  (oidc.Claims resp !! claim = None -> claim_refused e)
  /\ (forall v, oidc.Claims resp !! claim = Some v ->
                (forall s, v <> oidc.AnyString s) -> claim_refused e)
  /\ (forall s, oidc.Claims resp !! claim = Some (oidc.AnyString s) ->
                s <> value -> claim_refused e)
  /\ (forall s, oidc.Claims resp !! claim = Some (oidc.AnyString s) ->
                s <> "" -> s = value ->
                reply_status e = http.StatusOK
                /\ reply_body e = "authorized with value " +:+ value).
Proof.
  intros Hroute Hauth Hresp. cbv zeta.
  rewrite (serve_claim_introspected _ _ _ _ _ _ Hroute Hauth Hresp).
  repeat apply conj.
  - intros Habsent. apply claim_outcome_no_string.
    unfold oidc.index. now rewrite Habsent.
  - intros v Hv Hkind. apply claim_outcome_no_string.
    unfold oidc.index. rewrite Hv. simpl.
    destruct v; try reflexivity. now elim (Hkind s).
  - intros s Hs Hne. rewrite (claim_outcome_string _ _ _ _ _ Hs).
    rewrite (String_eqb_false _ _ Hne), orb_true_r. split; reflexivity.
  - intros s Hs Hne Heq. rewrite (claim_outcome_string _ _ _ _ _ Hs).
    rewrite (String_eqb_false _ _ Hne). subst s.
    rewrite String.eqb_refl. split; reflexivity.
Qed.

Lemma claim_route_decision_witness :
  let alice := user_response (oidc.AnyString "alice@example.com") in
  let same := claim_request "Bearer t0k" "username" "alice@example.com" in
  let other := claim_request "Bearer t0k" "username" "bob@example.com" in
  (reply_status (serve (always (Ok alice)) (marshals_to "{}") "" same) = 200
   /\ reply_body (serve (always (Ok alice)) (marshals_to "{}") "" same)
      = "authorized with value alice@example.com")
  /\ claim_refused (serve (always (Ok alice)) (marshals_to "{}") "" other).
Proof.
  cbv zeta. split.
  - destruct (claim_route_decision
             (always (Ok (user_response (oidc.AnyString "alice@example.com"))))
             (marshals_to "{}") ""
             (claim_request "Bearer t0k" "username" "alice@example.com") "t0k"
             (user_response (oidc.AnyString "alice@example.com"))
             eq_refl eq_refl eq_refl) as (_ & _ & _ & Hequal).
    apply (Hequal "alice@example.com");
      [reflexivity | discriminate | reflexivity].
  - destruct (claim_route_decision
             (always (Ok (user_response (oidc.AnyString "alice@example.com"))))
             (marshals_to "{}") ""
             (claim_request "Bearer t0k" "username" "bob@example.com") "t0k"
             (user_response (oidc.AnyString "alice@example.com"))
             eq_refl eq_refl eq_refl) as (_ & _ & Hdiffer & _).
    apply (Hdiffer "alice@example.com"); [reflexivity | discriminate].
Defined.

(** C4: when the requested claim is present and is the empty string, the
    claim route answers 403 for every requested value, the empty one
    included: two empty strings never authorize. *)
Theorem empty_claim_never_matches
    (provider : rs.ResourceServer)
    (json_Marshal : oidc.IntrospectionResponse -> result string)
    (now : string) (r : chi.Request) (token : string)
    (resp : oidc.IntrospectionResponse) :
  chi.RoutePattern r = protectedClaimURL ->
  authorization r = "Bearer " +:+ token ->
  provider token = Ok resp ->
  oidc.Claims resp !! chi.URLParam r "claim" = Some (oidc.AnyString "") ->
  let e := serve provider json_Marshal now r in
  claim_refused e /\ reply_status e <> http.StatusOK.
Proof.
  intros Hroute Hauth Hresp Hempty. cbv zeta.
  rewrite (serve_claim_introspected _ _ _ _ _ _ Hroute Hauth Hresp).
  rewrite (claim_outcome_string _ _ _ _ _ Hempty). simpl orb. cbv iota.
  repeat split. discriminate.
Qed.

Lemma empty_claim_never_matches_witness :
  let blank := user_response (oidc.AnyString "") in
  let r := claim_request "Bearer t0k" "username" "" in
  chi.URLParam r "value" = ""
  /\ claim_refused (serve (always (Ok blank)) (marshals_to "{}") "" r)
  /\ reply_status (serve (always (Ok blank)) (marshals_to "{}") "" r) <> 200.
Proof.
  cbv zeta. split; [reflexivity|].
  apply (empty_claim_never_matches
           (always (Ok (user_response (oidc.AnyString ""))))
           (marshals_to "{}") ""
           (claim_request "Bearer t0k" "username" "") "t0k"
           (user_response (oidc.AnyString ""))
           eq_refl eq_refl eq_refl eq_refl).
Defined.

(** ** The two protected handlers after introspection *)

Lemma serve_protected_introspected
    (provider : rs.ResourceServer)
    (json_Marshal : oidc.IntrospectionResponse -> result string)
    (now : string) (r : chi.Request) (token : string)
    (resp : oidc.IntrospectionResponse) :
  chi.RoutePattern r = protectedURL ->
  authorization r = oidc.PrefixBearer +:+ token ->
  provider token = Ok resp ->
  serve provider json_Marshal now r =
  match json_Marshal resp with
  | Err err =>
      {| writer := http.finish (http.Error http.newResponseWriter err
                                  http.StatusInternalServerError);
         introspected := [token] |}
  | Ok data =>
      {| writer := http.finish (http.Write http.newResponseWriter data);
         introspected := [token] |}
  end.
Proof.
  intros Hroute Hauth Hresp. enter_handler Hroute.
  rewrite (checkToken_bearer _ _ _ Hauth). simpl negb. cbv iota.
  unfold rs.Introspect. rewrite Hresp.
  destruct (json_Marshal resp); reflexivity.
Qed.

Lemma serve_introspection_failed
    (provider : rs.ResourceServer)
    (json_Marshal : oidc.IntrospectionResponse -> result string)
    (now : string) (r : chi.Request) (token : string) (err : error) :
  protected_route r ->
  authorization r = oidc.PrefixBearer +:+ token ->
  provider token = Err err ->
  serve provider json_Marshal now r =
  {| writer := http.finish (http.Error http.newResponseWriter err
                              http.StatusForbidden);
     introspected := [token] |}.
Proof.
  intros [Hroute|Hroute] Hauth Hresp; enter_handler Hroute;
    rewrite (checkToken_bearer _ _ _ Hauth); simpl negb; cbv iota;
    unfold rs.Introspect; rewrite Hresp; reflexivity.
Qed.

(** C10: on [/protected], when introspection succeeds but [json.Marshal]
    of the response fails, the reply is 500 with the marshalling error's
    text (sent by [http.Error], hence as one line): an outcome that is none
    of 200, 401 and 403. *)
Theorem marshal_failure_internal_server_error
    (provider : rs.ResourceServer)
    (json_Marshal : oidc.IntrospectionResponse -> result string)
    (now : string) (r : chi.Request) (token : string)
    (resp : oidc.IntrospectionResponse) (err : error) :
  chi.RoutePattern r = protectedURL ->
  authorization r = "Bearer " +:+ token ->
  provider token = Ok resp ->
  json_Marshal resp = Err err ->
  let e := serve provider json_Marshal now r in
  reply_status e = http.StatusInternalServerError
  /\ reply_body e = err +:+ http.newline
  /\ reply_status e <> http.StatusOK
  /\ reply_status e <> http.StatusUnauthorized
  /\ reply_status e <> http.StatusForbidden.
Proof.
  intros Hroute Hauth Hresp Hjson. cbv zeta.
  rewrite (serve_protected_introspected _ _ _ _ _ _ Hroute Hauth Hresp).
  rewrite Hjson. repeat split; discriminate.
Qed.

Lemma marshal_failure_internal_server_error_witness :
  let resp := user_response (oidc.AnyString "alice@example.com") in
  let failing : oidc.IntrospectionResponse -> result string :=
    fun _ => Err "json: unsupported value" in
  let e := serve (always (Ok resp)) failing ""
             (request ["Bearer t0k"] protectedURL []) in
  reply_status e = 500
  /\ reply_body e = "json: unsupported value" +:+ http.newline
  /\ reply_status e <> 200 /\ reply_status e <> 401 /\ reply_status e <> 403.
Proof.
  cbv zeta.
  apply (marshal_failure_internal_server_error
           (always (Ok (user_response (oidc.AnyString "alice@example.com"))))
           (fun _ => Err "json: unsupported value") ""
           (request ["Bearer t0k"] protectedURL []) "t0k"
           (user_response (oidc.AnyString "alice@example.com"))
           "json: unsupported value" eq_refl eq_refl eq_refl eq_refl).
Defined.

(** ** Inactive tokens *)

(** C1 (the code departs from it): neither protected handler reads the
    [active] flag.  A token that introspection reports as inactive is
    answered with 200 on [/protected] whenever the response marshals, and
    with 200 on the claim route whenever the requested claim matches. *)
Theorem inactive_token_allowed
    (provider : rs.ResourceServer)
    (json_Marshal : oidc.IntrospectionResponse -> result string)
    (now : string) (r : chi.Request) (token : string)
    (resp : oidc.IntrospectionResponse) :
  authorization r = "Bearer " +:+ token ->
  provider token = Ok resp ->
  oidc.Active resp = false ->
  let e := serve provider json_Marshal now r in
  (chi.RoutePattern r = protectedURL ->
   forall data, json_Marshal resp = Ok data ->
     reply_status e = http.StatusOK /\ reply_body e = data)
  /\ (chi.RoutePattern r = protectedClaimURL ->
      forall s, oidc.Claims resp !! chi.URLParam r "claim" = Some (oidc.AnyString s) ->
        s <> "" -> s = chi.URLParam r "value" ->
        reply_status e = http.StatusOK
        /\ reply_body e = "authorized with value " +:+ s).
Proof.
  intros Hauth Hresp _. cbv zeta. split.
  - intros Hroute data Hjson.
    rewrite (serve_protected_introspected _ _ _ _ _ _ Hroute Hauth Hresp).
    rewrite Hjson. split; reflexivity.
  - intros Hroute s Hs Hne Heq.
    rewrite (serve_claim_introspected _ _ _ _ _ _ Hroute Hauth Hresp).
    rewrite (claim_outcome_string _ _ _ _ _ Hs).
    rewrite (String_eqb_false _ _ Hne), <- Heq, String.eqb_refl.
    split; reflexivity.
Qed.

Lemma inactive_token_allowed_witness :
  let inactive := {| oidc.Active := false; oidc.Claims := ∅ |} in
  let named := {| oidc.Active := false;
                  oidc.Claims := {[ "username" := oidc.AnyString "alice" ]} |} in
  let e := serve (always (Ok inactive)) (marshals_to "{active:false}") ""
             (request ["Bearer revoked"] protectedURL []) in
  let e' := serve (always (Ok named)) (marshals_to "{active:false}") ""
              (claim_request "Bearer revoked" "username" "alice") in
  oidc.Active inactive = false /\ oidc.Active named = false
  /\ (reply_status e = 200 /\ reply_body e = "{active:false}")
  /\ (reply_status e' = 200 /\ reply_body e' = "authorized with value alice").
Proof.
  cbv zeta. split; [reflexivity|]. split; [reflexivity|]. split.
  - destruct (inactive_token_allowed
                (always (Ok {| oidc.Active := false; oidc.Claims := ∅ |}))
                (marshals_to "{active:false}") ""
                (request ["Bearer revoked"] protectedURL []) "revoked"
                {| oidc.Active := false; oidc.Claims := ∅ |}
                eq_refl eq_refl eq_refl) as [Hprotected _].
    apply Hprotected; reflexivity.
  - destruct (inactive_token_allowed
                (always (Ok {| oidc.Active := false;
                               oidc.Claims := {[ "username" := oidc.AnyString "alice" ]} |}))
                (marshals_to "{active:false}") ""
                (claim_request "Bearer revoked" "username" "alice") "revoked"
                {| oidc.Active := false;
                   oidc.Claims := {[ "username" := oidc.AnyString "alice" ]} |}
                eq_refl eq_refl eq_refl) as [_ Hclaim].
    apply (Hclaim eq_refl "alice"); [reflexivity | discriminate | reflexivity].
Defined.

(** ** Introspection failures *)

(** C5 as stated does not hold: with an introspection error whose text
    carries the authority's reply, that reply is in the body sent to the
    caller, on either protected route. *)
Lemma introspection_error_text_not_withheld :
  let authority_body := "internal: signing key store offline" in
  let provider := failing_with "500 Internal Server Error" authority_body in
  ~ withholds (serve provider (marshals_to "{}") ""
                 (request ["Bearer t0k"] protectedURL []))
              authority_body
  /\ ~ withholds (serve provider (marshals_to "{}") ""
                    (claim_request "Bearer t0k" "username" "alice"))
                 authority_body.
Proof. cbv zeta. unfold withholds. split; vm_compute; discriminate. Qed.

(** C5, amended: when introspection fails on a protected route, the reply is
    403, declared as plain text, and its body is the whole text of the error
    the introspection client returned, unchanged, followed by a line feed.
    The handlers neither shorten nor replace that text. *)
Theorem introspection_failure_forwards_error_text
    (provider : rs.ResourceServer)
    (json_Marshal : oidc.IntrospectionResponse -> result string)
    (now : string) (r : chi.Request) (token : string) (err : error) :
  protected_route r ->
  authorization r = "Bearer " +:+ token ->
  provider token = Err err ->
  let e := serve provider json_Marshal now r in
  reply_status e = http.StatusForbidden
  /\ reply_body e = err +:+ http.newline
  /\ http.header (writer e) !! "Content-Type" = Some ["text/plain; charset=utf-8"]
  /\ introspected e = [token].
Proof.
  intros Hroute Hauth Hresp. cbv zeta.
  rewrite (serve_introspection_failed _ _ _ _ _ _ Hroute Hauth Hresp).
  repeat split.
Qed.

Lemma introspection_failure_forwards_error_text_witness :
  let e := serve (always (Err "context deadline exceeded")) (marshals_to "{}") ""
             (request ["Bearer t0k"] protectedURL []) in
  reply_status e = 403
  /\ reply_body e = "context deadline exceeded" +:+ http.newline
  /\ http.header (writer e) !! "Content-Type" = Some ["text/plain; charset=utf-8"]
  /\ introspected e = ["t0k"].
Proof.
  cbv zeta.
  apply (introspection_failure_forwards_error_text
           (always (Err "context deadline exceeded")) (marshals_to "{}") ""
           (request ["Bearer t0k"] protectedURL []) "t0k"
           "context deadline exceeded" (or_introl eq_refl) eq_refl eq_refl).
Defined.

(** ** Failure kinds of the claim matcher *)

Lemma type_assertion_by_kind (claims : gmap string oidc.any)
    (claim value : string) (k : MatchFailure) :
  matcher_as_specified claims claim value = Some k ->
  match k with
  | ClaimAbsent | ClaimTypeMismatch => type_assertion claims claim = ("", false)
  | ClaimEmpty => type_assertion claims claim = ("", true)
  | ClaimValueMismatch =>
      exists s, type_assertion claims claim = (s, true) /\ s <> "" /\ s <> value
  end.
Proof.
  unfold matcher_as_specified, type_assertion, oidc.index.
  destruct (claims !! claim) as [v|]; simpl.
  - destruct v; try (intros [= <-]; reflexivity).
    destruct (String.eqb_spec s "") as [->|Hne]; [intros [= <-]; reflexivity|].
    destruct (String.eqb_spec s value) as [_|Hvalue]; [discriminate|].
    intros [= <-]. now exists s.
  - intros [= <-]. reflexivity.
Qed.

Lemma sample_kind (k : MatchFailure) :
  matcher_as_specified (sample k) "c" "v" = Some k.
Proof. destruct k; reflexivity. Qed.

Lemma told_apart_iff (k1 k2 : MatchFailure) :
  k1 <> k2 ->
  told_apart k1 k2 <->
  ~ (assertion_fails k1 = true /\ assertion_fails k2 = true).
Proof.
  intros Hdistinct. split.
  - intros (c1 & n1 & v1 & c2 & n2 & v2 & H1 & H2 & Hne) [Hf1 Hf2].
    apply Hne.
    pose proof (type_assertion_by_kind _ _ _ _ H1) as P1.
    pose proof (type_assertion_by_kind _ _ _ _ H2) as P2.
    destruct k1; try discriminate Hf1; destruct k2; try discriminate Hf2;
      congruence.
  - intros Hnot.
    exists (sample k1), "c", "v", (sample k2), "c", "v".
    split; [apply sample_kind|]. split; [apply sample_kind|].
    destruct k1, k2; try congruence; try (vm_compute; discriminate);
      elim Hnot; split; reflexivity.
Qed.

(** C6 as stated does not hold: an absent claim and a claim of another type
    than string leave the handler with the same pair, the empty string and
    [false], whatever the inputs. *)
Lemma absent_and_mistyped_not_told_apart :
  ~ told_apart ClaimAbsent ClaimTypeMismatch.
Proof.
  intros (claims1 & claim1 & value1 & claims2 & claim2 & value2 & H1 & H2 & Hne).
  apply Hne.
  rewrite (type_assertion_by_kind _ _ _ _ H1).
  now rewrite (type_assertion_by_kind _ _ _ _ H2).
Qed.

(** C6, amended: the four failure kinds all get the same reply, 403 with the
    text [claim does not match].  Inside the handler only the pair
    [(value, ok)] of the type assertion exists: it is the empty string with
    [false] for an absent claim and for a claim that is not a string alike,
    the empty string with [true] for an empty claim, and a non-empty string
    with [true] for a value mismatch.  So every two distinct kinds are told
    apart by that pair, except [ClaimAbsent] and [ClaimTypeMismatch]. *)
Theorem claim_failures_collapse
    (provider : rs.ResourceServer)
    (json_Marshal : oidc.IntrospectionResponse -> result string)
    (now : string) (r : chi.Request) (token : string)
    (resp : oidc.IntrospectionResponse) (k : MatchFailure) :
  chi.RoutePattern r = protectedClaimURL ->
  authorization r = "Bearer " +:+ token ->
  provider token = Ok resp ->
  let claim := chi.URLParam r "claim" in
  let value := chi.URLParam r "value" in
  matcher_as_specified (oidc.Claims resp) claim value = Some k ->
  claim_refused (serve provider json_Marshal now r)
  /\ match k with
     | ClaimAbsent | ClaimTypeMismatch =>
         type_assertion (oidc.Claims resp) claim = ("", false)
     | ClaimEmpty => type_assertion (oidc.Claims resp) claim = ("", true)
     | ClaimValueMismatch =>
         exists s, type_assertion (oidc.Claims resp) claim = (s, true)
                   /\ s <> "" /\ s <> value
     end
  /\ (forall k', k <> k' ->
        told_apart k k' <->
        ~ (assertion_fails k = true /\ assertion_fails k' = true)).
Proof.
  intros Hroute Hauth Hresp. cbv zeta. intros Hkind.
  split; [|split; [exact (type_assertion_by_kind _ _ _ _ Hkind)
                  |intros k' Hdistinct; now apply told_apart_iff]].
  rewrite (serve_claim_introspected _ _ _ _ _ _ Hroute Hauth Hresp).
  pose proof (type_assertion_by_kind _ _ _ _ Hkind) as Hpair.
  unfold type_assertion in Hpair. unfold claim_outcome.
  destruct k.
  - rewrite Hpair. split; reflexivity.
  - rewrite Hpair. split; reflexivity.
  - rewrite Hpair. split; reflexivity.
  - destruct Hpair as (s & -> & Hne & Hvalue).
    rewrite (String_eqb_false _ _ Hne), (String_eqb_false _ _ Hvalue).
    split; reflexivity.
Qed.

Lemma claim_failures_collapse_witness :
  let serve_with (name : oidc.any) (claim : string) :=
    serve (always (Ok (user_response name))) (marshals_to "{}") ""
      (claim_request "Bearer t0k" claim "alice") in
  (claim_refused (serve_with (oidc.AnyString "alice") "email")
   /\ type_assertion {[ "username" := oidc.AnyString "alice" ]} "email" = ("", false))
  /\ (claim_refused (serve_with (oidc.AnyBool true) "username")
      /\ type_assertion {[ "username" := oidc.AnyBool true ]} "username" = ("", false))
  /\ (claim_refused (serve_with (oidc.AnyString "") "username")
      /\ type_assertion {[ "username" := oidc.AnyString "" ]} "username" = ("", true)).
Proof.
  cbv zeta. split; [|split].
  - destruct (claim_failures_collapse
             (always (Ok (user_response (oidc.AnyString "alice"))))
             (marshals_to "{}") "" (claim_request "Bearer t0k" "email" "alice")
             "t0k" (user_response (oidc.AnyString "alice")) ClaimAbsent
             eq_refl eq_refl eq_refl eq_refl) as (Hrefused & Hpair & _).
    split; [exact Hrefused | exact Hpair].
  - destruct (claim_failures_collapse
             (always (Ok (user_response (oidc.AnyBool true))))
             (marshals_to "{}") "" (claim_request "Bearer t0k" "username" "alice")
             "t0k" (user_response (oidc.AnyBool true)) ClaimTypeMismatch
             eq_refl eq_refl eq_refl eq_refl) as (Hrefused & Hpair & _).
    split; [exact Hrefused | exact Hpair].
  - destruct (claim_failures_collapse
             (always (Ok (user_response (oidc.AnyString ""))))
             (marshals_to "{}") "" (claim_request "Bearer t0k" "username" "alice")
             "t0k" (user_response (oidc.AnyString "")) ClaimEmpty
             eq_refl eq_refl eq_refl eq_refl) as (Hrefused & Hpair & _).
    split; [exact Hrefused | exact Hpair].
Defined.

(** ** Successive requests *)

Lemma checkToken_cases (w : http.ResponseWriter) (r : chi.Request) :
  (exists w', checkToken w r = (w', (false, "")))
  \/ (exists token, authorization r = oidc.PrefixBearer +:+ token
                    /\ checkToken w r = (w, (true, token))).
Proof.
  destruct (String.eqb_spec (authorization r) "") as [Hempty|Hne].
  - left. eexists. now apply checkToken_missing.
  - destruct (HasPrefix (authorization r) oidc.PrefixBearer) eqn:Hprefix.
    + right. destruct (HasPrefix_inv _ _ Hprefix) as [token Htoken].
      exists token. split; [exact Htoken | now apply checkToken_bearer].
    + left. eexists. now apply checkToken_invalid.
Qed.

(** The reply to a request depends on the resource server only through its
    answer for the request's own token, and on the clock only on the public
    route, where the status does not depend on it either. *)
Lemma serve_agree
    (provider1 provider2 : rs.ResourceServer)
    (json_Marshal : oidc.IntrospectionResponse -> result string)
    (now1 now2 : string) (r : chi.Request) :
  (forall token, authorization r = oidc.PrefixBearer +:+ token ->
                 provider1 token = provider2 token) ->
  let e1 := serve provider1 json_Marshal now1 r in
  let e2 := serve provider2 json_Marshal now2 r in
  reply_status e1 = reply_status e2
  /\ introspected e1 = introspected e2
  /\ (chi.RoutePattern r <> publicURL -> e1 = e2).
Proof.
  intros Hagree. cbv zeta. unfold serve, router.
  destruct (String.eqb_spec (chi.RoutePattern r) publicURL) as [Hpub|Hpub].
  { repeat split. intros Hne. now elim Hne. }
  assert (forall x y : Effects, x = y ->
            reply_status x = reply_status y
            /\ introspected x = introspected y
            /\ (chi.RoutePattern r <> publicURL -> x = y)) as Hsame
    by (intros x y ->; repeat split).
  apply Hsame. clear Hsame.
  destruct (String.eqb (chi.RoutePattern r) protectedURL);
    [|destruct (String.eqb (chi.RoutePattern r) protectedClaimURL);
      [|reflexivity]].
  - unfold protectedHandler.
    destruct (checkToken_cases http.newResponseWriter r)
      as [[w' ->]|(token & Hauth & ->)]; [reflexivity|].
    simpl negb. cbv iota. unfold rs.Introspect.
    now rewrite (Hagree token Hauth).
  - unfold protectedClaimHandler.
    destruct (checkToken_cases http.newResponseWriter r)
      as [[w' ->]|(token & Hauth & ->)]; [reflexivity|].
    simpl negb. cbv iota. unfold rs.Introspect.
    now rewrite (Hagree token Hauth).
Qed.

Lemma ListenAndServe_app
    (json_Marshal : oidc.IntrospectionResponse -> result string)
    (first rest : list (Moment * chi.Request)) :
  ListenAndServe json_Marshal (first ++ rest)
  = (ListenAndServe json_Marshal first ++ ListenAndServe json_Marshal rest)%list.
Proof.
  induction first as [|[m r] first IH]; simpl; [reflexivity | now rewrite IH].
Qed.

Lemma ListenAndServe_last
    (json_Marshal : oidc.IntrospectionResponse -> result string)
    (before : list (Moment * chi.Request)) (m : Moment) (r : chi.Request) :
  last (ListenAndServe json_Marshal (before ++ [(m, r)]))
  = Some (serve (answers m) json_Marshal (clock m) r).
Proof. rewrite ListenAndServe_app. simpl. apply last_snoc. Qed.

(** C9: the pipeline keeps nothing between requests.  Take the same request
    at the end of any two runs of the server, whatever was served before it
    in each, and let introspection give the same answer for its token both
    times: both replies carry the same status and cause the same
    introspection call, and on the protected routes they are equal
    altogether. *)
Theorem pipeline_deterministic
    (json_Marshal : oidc.IntrospectionResponse -> result string)
    (before1 before2 : list (Moment * chi.Request))
    (m1 m2 : Moment) (r : chi.Request) :
  (forall token, authorization r = "Bearer " +:+ token ->
                 answers m1 token = answers m2 token) ->
  exists e1 e2,
    last (ListenAndServe json_Marshal (before1 ++ [(m1, r)])) = Some e1
    /\ last (ListenAndServe json_Marshal (before2 ++ [(m2, r)])) = Some e2
    /\ reply_status e1 = reply_status e2
    /\ introspected e1 = introspected e2
    /\ (protected_route r -> e1 = e2).
Proof.
  intros Hagree.
  exists (serve (answers m1) json_Marshal (clock m1) r),
         (serve (answers m2) json_Marshal (clock m2) r).
  split; [apply ListenAndServe_last|]. split; [apply ListenAndServe_last|].
  destruct (serve_agree (answers m1) (answers m2) json_Marshal
              (clock m1) (clock m2) r Hagree) as (Hstatus & Hcalls & Hequal).
  repeat split; [exact Hstatus | exact Hcalls |].
  intros [Hroute|Hroute]; apply Hequal; rewrite Hroute; discriminate.
Qed.

Lemma pipeline_deterministic_witness :
  let alice := user_response (oidc.AnyString "alice@example.com") in
  let morning := mkMoment (always (Ok alice)) "2024-05-01 10:00:00" in
  let evening :=
    mkMoment (fun token => if String.eqb token "t0k" then Ok alice
                           else Err "token unknown")
             "2024-05-01 22:00:00" in
  let r := claim_request "Bearer t0k" "username" "alice@example.com" in
  let earlier := [(evening, request ["Bearer other"] protectedURL []);
                  (morning, request [] publicURL [])] in
  exists e1 e2,
    last (ListenAndServe (marshals_to "{}") ([] ++ [(morning, r)])) = Some e1
    /\ last (ListenAndServe (marshals_to "{}") (earlier ++ [(evening, r)])) = Some e2
    /\ reply_status e1 = reply_status e2
    /\ introspected e1 = introspected e2
    /\ (protected_route r -> e1 = e2).
Proof.
  cbv zeta.
  apply (pipeline_deterministic (marshals_to "{}") []
           [(mkMoment (fun token => if String.eqb token "t0k"
                                    then Ok (user_response (oidc.AnyString "alice@example.com"))
                                    else Err "token unknown")
                      "2024-05-01 22:00:00",
             request ["Bearer other"] protectedURL []);
            (mkMoment (always (Ok (user_response (oidc.AnyString "alice@example.com"))))
                      "2024-05-01 10:00:00",
             request [] publicURL [])]).
  intros token Htoken. vm_compute in Htoken.
  injection Htoken as <-. reflexivity.
Defined.

(** * Further properties of the handlers *)

(** ** [checkToken], read backwards *)

Lemma Error_wroteHeader (w : http.ResponseWriter) (msg : string) (code : Z) :
  http.wroteHeader (http.Error w msg code) = true.
Proof.
  unfold http.Error, http.Write, http.WriteHeader, http.setHeader. simpl.
  destruct (http.wroteHeader w); reflexivity.
Qed.

Lemma checkToken_rejects (w : http.ResponseWriter) (r : chi.Request) :
  HasPrefix (authorization r) oidc.PrefixBearer = false ->
  checkToken w r =
    (http.Error w (rejection_text (authorization r)) http.StatusUnauthorized,
     (false, "")).
Proof.
  intros Hprefix. unfold rejection_text.
  destruct (String.eqb_spec (authorization r) "") as [Hempty|Hne].
  - now apply checkToken_missing.
  - now apply checkToken_invalid.
Qed.

(** X1: when [checkToken] reports success, it has written nothing and the
    header it read is the bearer prefix followed by the returned token: the
    token loses nothing of the header. *)
Theorem checkToken_success_inv
    (w w' : http.ResponseWriter) (r : chi.Request) (token : string) :
  checkToken w r = (w', (true, token)) ->
  w' = w /\ authorization r = "Bearer " +:+ token.
Proof.
  intros Hcheck.
  destruct (HasPrefix (authorization r) oidc.PrefixBearer) eqn:Hprefix.
  - destruct (HasPrefix_inv _ _ Hprefix) as [t Ht].
    rewrite (checkToken_bearer w r t Ht) in Hcheck.
    injection Hcheck as <- <-. split; [reflexivity | exact Ht].
  - rewrite (checkToken_rejects w r Hprefix) in Hcheck. discriminate.
Qed.

Lemma checkToken_success_inv_witness :
  let r := request ["Bearer abc.def"; "Bearer second"] protectedURL [] in
  checkToken http.newResponseWriter r = (http.newResponseWriter, (true, "abc.def"))
  /\ authorization r = "Bearer " +:+ "abc.def".
Proof.
  cbv zeta. split; [reflexivity|].
  apply (checkToken_success_inv http.newResponseWriter http.newResponseWriter
           (request ["Bearer abc.def"; "Bearer second"] protectedURL [])
           "abc.def" eq_refl).
Defined.

(** X2: when [checkToken] reports failure, the header did not start with the
    bearer prefix, the token it returns is empty, and a reply has been
    committed: on a writer that had sent nothing, status 401 with one of the
    two fixed texts, so that nothing of the header is echoed. *)
Theorem checkToken_failure_inv
    (w w' : http.ResponseWriter) (r : chi.Request) (token : string) :
  checkToken w r = (w', (false, token)) ->
  HasPrefix (authorization r) "Bearer " = false
  /\ token = ""
  /\ http.wroteHeader w' = true
  /\ (http.wroteHeader w = false ->
      http.status w' = http.StatusUnauthorized
      /\ (http.body w' = http.body w +:+ "auth header missing" +:+ http.newline
          \/ http.body w' = http.body w +:+ "invalid header" +:+ http.newline)).
Proof.
  intros Hcheck.
  destruct (HasPrefix (authorization r) oidc.PrefixBearer) eqn:Hprefix.
  - destruct (HasPrefix_inv _ _ Hprefix) as [t Ht].
    rewrite (checkToken_bearer w r t Ht) in Hcheck. discriminate.
  - rewrite (checkToken_rejects w r Hprefix) in Hcheck.
    injection Hcheck as <- <-.
    split; [exact Hprefix|]. split; [reflexivity|].
    split; [apply Error_wroteHeader|].
    intros Hfresh. unfold http.Error, http.Write, http.WriteHeader, http.setHeader.
    simpl. rewrite Hfresh. simpl. split; [reflexivity|].
    unfold rejection_text. destruct (String.eqb _ ""); [left|right]; reflexivity.
Qed.

Lemma checkToken_failure_inv_witness :
  let r := request ["Token abc"] protectedClaimURL [] in
  let w' := http.Error http.newResponseWriter "invalid header" 401 in
  checkToken http.newResponseWriter r = (w', (false, ""))
  /\ HasPrefix (authorization r) "Bearer " = false
  /\ http.wroteHeader w' = true.
Proof.
  cbv zeta. split; [reflexivity|].
  destruct (checkToken_failure_inv http.newResponseWriter
              (http.Error http.newResponseWriter "invalid header" 401)
              (request ["Token abc"] protectedClaimURL []) "" eq_refl)
    as (Hprefix & _ & Hwrote & _).
  split; [exact Hprefix | exact Hwrote].
Defined.

(** ** How a request is decided *)

Lemma serve_rejected
    (provider : rs.ResourceServer)
    (json_Marshal : oidc.IntrospectionResponse -> result string)
    (now : string) (r : chi.Request) :
  protected_route r ->
  HasPrefix (authorization r) oidc.PrefixBearer = false ->
  serve provider json_Marshal now r =
  {| writer := http.finish (http.Error http.newResponseWriter
                              (rejection_text (authorization r))
                              http.StatusUnauthorized);
     introspected := [] |}.
Proof.
  intros [Hroute|Hroute] Hprefix; enter_handler Hroute;
    rewrite (checkToken_rejects _ _ Hprefix); reflexivity.
Qed.

Lemma asks_for_token_spec (r : chi.Request) :
  asks_for_token r = true <-> protected_route r.
Proof.
  unfold asks_for_token, protected_route.
  rewrite orb_true_iff, !String.eqb_eq. reflexivity.
Qed.

Lemma serve_elsewhere
    (provider : rs.ResourceServer)
    (json_Marshal : oidc.IntrospectionResponse -> result string)
    (now : string) (r : chi.Request) :
  asks_for_token r = false ->
  introspected (serve provider json_Marshal now r) = [].
Proof.
  unfold asks_for_token. intros Hnot.
  apply orb_false_elim in Hnot as [Hp Hc].
  unfold serve, router. rewrite Hp, Hc.
  destruct (String.eqb (chi.RoutePattern r) publicURL); reflexivity.
Qed.

Lemma serve_bearer_calls
    (provider : rs.ResourceServer)
    (json_Marshal : oidc.IntrospectionResponse -> result string)
    (now : string) (r : chi.Request) (token : string) :
  protected_route r ->
  authorization r = oidc.PrefixBearer +:+ token ->
  introspected (serve provider json_Marshal now r) = [token].
Proof.
  intros Hroute Hauth. destruct (provider token) as [resp|err] eqn:Hanswer.
  - destruct Hroute as [Hroute|Hroute].
    + rewrite (serve_protected_introspected _ _ _ _ _ _ Hroute Hauth Hanswer).
      destruct (json_Marshal resp); reflexivity.
    + rewrite (serve_claim_introspected _ _ _ _ _ _ Hroute Hauth Hanswer).
      unfold claim_outcome. destruct (oidc.assert_string _) as [value ok].
      destruct (_ || _); reflexivity.
  - now rewrite (serve_introspection_failed _ _ _ _ _ _ Hroute Hauth Hanswer).
Qed.

(** X3: the introspection endpoint is called at most once per request, and
    exactly then when the request is on a protected route and its
    authorization header starts with the bearer prefix; the token sent is
    the header without that prefix.  No other request, the public route
    included, causes a call. *)
Theorem introspection_calls
    (provider : rs.ResourceServer)
    (json_Marshal : oidc.IntrospectionResponse -> result string)
    (now : string) (r : chi.Request) :
  introspected (serve provider json_Marshal now r) =
  if asks_for_token r && HasPrefix (authorization r) "Bearer "
  then [TrimPrefix (authorization r) "Bearer "]
  else [].
Proof.
  destruct (asks_for_token r) eqn:Hasks; simpl andb; cbv iota.
  - apply asks_for_token_spec in Hasks.
    destruct (HasPrefix (authorization r) "Bearer ") eqn:Hprefix.
    + destruct (HasPrefix_inv _ _ Hprefix) as [token Htoken].
      rewrite Htoken, TrimPrefix_app.
      exact (serve_bearer_calls provider json_Marshal now r token Hasks Htoken).
    + now rewrite (serve_rejected _ _ _ _ Hasks Hprefix).
  - now apply serve_elsewhere.
Qed.

Lemma error_reply_facts (msg : string) (code : Z) (calls : list string) :
  reply_status (error_reply msg code calls) = code
  /\ reply_body (error_reply msg code calls) = msg +:+ http.newline
  /\ http.header (writer (error_reply msg code calls)) !! "Content-Type"
     = Some ["text/plain; charset=utf-8"]
  /\ http.header (writer (error_reply msg code calls)) !! "X-Content-Type-Options"
     = Some ["nosniff"].
Proof. repeat split. Qed.

Lemma data_reply_facts (data : string) (calls : list string) :
  reply_status (data_reply data calls) = http.StatusOK
  /\ reply_body (data_reply data calls) = data
  /\ http.header (writer (data_reply data calls)) = ∅.
Proof. repeat split. Qed.

Lemma claim_matches_dec (resp : oidc.IntrospectionResponse) (claim value : string) :
  (claim_matches resp claim value
   /\ forall token, claim_outcome resp claim value token
                    = data_reply ("authorized with value " +:+ value) [token])
  \/ (~ claim_matches resp claim value
      /\ forall token, claim_outcome resp claim value token
                       = error_reply "claim does not match" http.StatusForbidden [token]).
Proof.
  unfold claim_matches.
  destruct (oidc.Claims resp !! claim) as [v|] eqn:Hv.
  - destruct v as [|b|bits|s|l|m];
      try (right; split; [intros [[=] _] | intros token;
           unfold claim_outcome, oidc.index; rewrite Hv; reflexivity]).
    destruct (String.eqb_spec s "") as [->|Hne].
    + right. split; [intros [[= <-] Hvalue]; now elim Hvalue|].
      intros token. now rewrite (claim_outcome_string _ _ _ _ _ Hv).
    + destruct (String.eqb_spec s value) as [->|Hvalue].
      * left. split; [split; [reflexivity | exact Hne]|].
        intros token. rewrite (claim_outcome_string _ _ _ _ _ Hv).
        rewrite (String_eqb_false _ _ Hne), String.eqb_refl. reflexivity.
      * right. split; [intros [[= ->] _]; now elim Hvalue|].
        intros token. rewrite (claim_outcome_string _ _ _ _ _ Hv).
        rewrite (String_eqb_false _ _ Hne), (String_eqb_false _ _ Hvalue).
        reflexivity.
  - right. split; [intros [[=] _]|]. intros token.
    unfold claim_outcome, oidc.index. rewrite Hv. reflexivity.
Qed.

(** Every way a request on a protected route can end. *)
Lemma serve_protected_cases
    (provider : rs.ResourceServer)
    (json_Marshal : oidc.IntrospectionResponse -> result string)
    (now : string) (r : chi.Request) :
  protected_route r ->
  let e := serve provider json_Marshal now r in
  (HasPrefix (authorization r) oidc.PrefixBearer = false
   /\ e = error_reply (rejection_text (authorization r)) http.StatusUnauthorized [])
  \/ exists token, authorization r = oidc.PrefixBearer +:+ token /\
      ((exists err, provider token = Err err
                    /\ e = error_reply err http.StatusForbidden [token])
       \/ exists resp, provider token = Ok resp /\
           ((chi.RoutePattern r = protectedURL
             /\ exists data, json_Marshal resp = Ok data
                             /\ e = data_reply data [token])
            \/ (chi.RoutePattern r = protectedURL
                /\ exists err, json_Marshal resp = Err err
                               /\ e = error_reply err
                                        http.StatusInternalServerError [token])
            \/ (chi.RoutePattern r = protectedClaimURL
                /\ claim_matches resp (chi.URLParam r "claim") (chi.URLParam r "value")
                /\ e = data_reply ("authorized with value "
                                   +:+ chi.URLParam r "value") [token])
            \/ (chi.RoutePattern r = protectedClaimURL
                /\ ~ claim_matches resp (chi.URLParam r "claim")
                                   (chi.URLParam r "value")
                /\ e = error_reply "claim does not match"
                         http.StatusForbidden [token]))).
Proof.
  intros Hroute. cbv zeta.
  destruct (HasPrefix (authorization r) oidc.PrefixBearer) eqn:Hprefix.
  2:{ left. split; [reflexivity|]. now apply serve_rejected. }
  right. destruct (HasPrefix_inv _ _ Hprefix) as [token Hauth].
  exists token. split; [exact Hauth|].
  destruct (provider token) as [resp|err] eqn:Hanswer.
  2:{ left. exists err. split; [reflexivity|].
      now apply serve_introspection_failed. }
  right. exists resp. split; [reflexivity|].
  destruct Hroute as [Hroute|Hroute].
  - rewrite (serve_protected_introspected _ _ _ _ _ _ Hroute Hauth Hanswer).
    destruct (json_Marshal resp) as [data|err].
    + left. split; [exact Hroute|]. now exists data.
    + right. left. split; [exact Hroute|]. now exists err.
  - rewrite (serve_claim_introspected _ _ _ _ _ _ Hroute Hauth Hanswer).
    destruct (claim_matches_dec resp (chi.URLParam r "claim") (chi.URLParam r "value"))
      as [[Hmatch Hreply]|[Hmatch Hreply]].
    + right. right. left. split; [exact Hroute|]. split; [exact Hmatch|].
      apply Hreply.
    + right. right. right. split; [exact Hroute|]. split; [exact Hmatch|].
      apply Hreply.
Qed.

Ltac status_clash H :=
  match type of H with
  | reply_status (error_reply ?msg ?code ?calls) = _ =>
      rewrite (proj1 (error_reply_facts msg code calls)) in H; discriminate H
  | reply_status (data_reply ?data ?calls) = _ =>
      rewrite (proj1 (data_reply_facts data calls)) in H; discriminate H
  end.

(** X4: the claim route answers 200 only to a request whose header carries a
    bearer token, whose token introspection accepted without error, and
    whose requested claim is a non-empty string equal to the requested
    value; and it answers 200 to every such request.  In particular an empty
    requested value is never authorized. *)
Theorem claim_route_allowed_iff
    (provider : rs.ResourceServer)
    (json_Marshal : oidc.IntrospectionResponse -> result string)
    (now : string) (r : chi.Request) :
  chi.RoutePattern r = protectedClaimURL ->
  reply_status (serve provider json_Marshal now r) = http.StatusOK <->
  exists token resp,
    authorization r = "Bearer " +:+ token
    /\ provider token = Ok resp
    /\ oidc.Claims resp !! chi.URLParam r "claim"
       = Some (oidc.AnyString (chi.URLParam r "value"))
    /\ chi.URLParam r "value" <> "".
Proof.
  intros Hroute. split.
  - intros Hok.
    destruct (serve_protected_cases provider json_Marshal now r (or_intror Hroute))
      as [[_ He]|(token & Hauth & [(err & _ & He)|(resp & Hanswer & Hcases)])];
      try (rewrite He in Hok; status_clash Hok).
    destruct Hcases as [(Hp & _)|[(Hp & _)|[(_ & Hmatch & _)|(_ & _ & He)]]];
      try (rewrite Hroute in Hp; discriminate Hp).
    + exists token, resp. destruct Hmatch as [Hclaim Hvalue]. now repeat split.
    + rewrite He in Hok. status_clash Hok.
  - intros (token & resp & Hauth & Hanswer & Hclaim & Hvalue).
    rewrite (serve_claim_introspected _ _ _ _ _ _ Hroute Hauth Hanswer).
    destruct (claim_matches_dec resp (chi.URLParam r "claim") (chi.URLParam r "value"))
      as [[_ Hreply]|[Hnot _]].
    + rewrite Hreply. reflexivity.
    + elim Hnot. now split.
Qed.

Lemma claim_route_allowed_iff_witness :
  let alice := user_response (oidc.AnyString "alice@example.com") in
  let r := claim_request "Bearer t0k" "username" "" in
  chi.RoutePattern r = protectedClaimURL
  /\ reply_status (serve (always (Ok alice)) (marshals_to "{}") "" r) <> 200.
Proof.
  cbv zeta. split; [reflexivity|]. intros Hok.
  apply (claim_route_allowed_iff
           (always (Ok (user_response (oidc.AnyString "alice@example.com"))))
           (marshals_to "{}") "" (claim_request "Bearer t0k" "username" "")
           eq_refl) in Hok.
  destruct Hok as (token & resp & _ & _ & _ & Hvalue).
  apply Hvalue. reflexivity.
Defined.



(** X6: on a protected route the reply is 401 exactly when the authorization
    header does not start with the bearer prefix: no failure of
    introspection, marshalling or claim matching is ever reported as 401. *)
Theorem unauthorized_iff
    (provider : rs.ResourceServer)
    (json_Marshal : oidc.IntrospectionResponse -> result string)
    (now : string) (r : chi.Request) :
  protected_route r ->
  reply_status (serve provider json_Marshal now r) = http.StatusUnauthorized <->
  HasPrefix (authorization r) "Bearer " = false.
Proof.
  intros Hroute. split.
  - intros Hstatus.
    destruct (serve_protected_cases provider json_Marshal now r Hroute)
      as [[Hprefix _]|(token & Hauth & [(err & _ & He)|(resp & _ & Hcases)])].
    + exact Hprefix.
    + rewrite He in Hstatus. status_clash Hstatus.
    + destruct Hcases as [(_ & data & _ & He)|[(_ & err & _ & He)
                         |[(_ & _ & He)|(_ & _ & He)]]];
        rewrite He in Hstatus; status_clash Hstatus.
  - intros Hprefix. now rewrite (serve_rejected _ _ _ _ Hroute Hprefix).
Qed.

Lemma unauthorized_iff_witness :
  let r := request ["Bearer"] protectedURL [] in
  protected_route r
  /\ reply_status (serve (always (Err "unreachable")) (marshals_to "{}") "" r) = 401.
Proof.
  cbv zeta. split; [left; reflexivity|].
  apply (unauthorized_iff (always (Err "unreachable")) (marshals_to "{}") ""
           (request ["Bearer"] protectedURL []) (or_introl eq_refl)).
  reflexivity.
Defined.

(** X7: the statuses a protected route can answer with: 200, 401 or 403, and on
    [/protected] also 500, which needs a marshalling failure.  The claim
    route never answers 500. *)
Theorem protected_status_range
    (provider : rs.ResourceServer)
    (json_Marshal : oidc.IntrospectionResponse -> result string)
    (now : string) (r : chi.Request) :
  protected_route r ->
  let s := reply_status (serve provider json_Marshal now r) in
  s = http.StatusOK \/ s = http.StatusUnauthorized \/ s = http.StatusForbidden
  \/ (s = http.StatusInternalServerError
      /\ chi.RoutePattern r = protectedURL
      /\ exists token resp err,
           authorization r = "Bearer " +:+ token
           /\ provider token = Ok resp /\ json_Marshal resp = Err err).
Proof.
  intros Hroute. cbv zeta.
  destruct (serve_protected_cases provider json_Marshal now r Hroute)
    as [[_ He]|(token & Hauth & [(err & _ & He)|(resp & Hanswer & Hcases)])].
  - right. left. now rewrite He.
  - right. right. left. now rewrite He.
  - destruct Hcases as [(_ & data & _ & He)|[(Hp & err & Hjson & He)
                       |[(_ & _ & He)|(_ & _ & He)]]]; rewrite He.
    + now left.
    + right. right. right. split; [reflexivity|]. split; [exact Hp|].
      now exists token, resp, err.
    + now left.
    + right. right. now left.
Qed.

Lemma protected_status_range_witness :
  let r := claim_request "Bearer t0k" "username" "alice" in
  let s := reply_status (serve (always (Ok (user_response (oidc.AnyBool true))))
                           (fun _ => Err "json: unsupported value") "" r) in
  protected_route r /\ s <> 500.
Proof.
  cbv zeta. split; [right; reflexivity|].
  destruct (protected_status_range
              (always (Ok (user_response (oidc.AnyBool true))))
              (fun _ => Err "json: unsupported value") ""
              (claim_request "Bearer t0k" "username" "alice")
              (or_intror eq_refl))
    as [Hs|[Hs|[Hs|(_ & Hroute & _)]]];
    [rewrite Hs; discriminate .. | discriminate Hroute].
Defined.

(** X8: what is sent besides the status, on a protected route.  A reply other
    than 200 is declared as plain text, carries [nosniff], and its body is
    one line: a text ended by a line feed.  A 200 reply goes out with no
    header set by the handler, not even a content type for the JSON body. *)
Theorem protected_reply_headers
    (provider : rs.ResourceServer)
    (json_Marshal : oidc.IntrospectionResponse -> result string)
    (now : string) (r : chi.Request) :
  protected_route r ->
  let e := serve provider json_Marshal now r in
  (reply_status e <> http.StatusOK ->
   http.header (writer e) !! "Content-Type" = Some ["text/plain; charset=utf-8"]
   /\ http.header (writer e) !! "X-Content-Type-Options" = Some ["nosniff"]
   /\ exists text, reply_body e = text +:+ http.newline)
  /\ (reply_status e = http.StatusOK -> http.header (writer e) = ∅).
Proof.
  intros Hroute. cbv zeta.
  assert (forall msg code calls,
            code <> http.StatusOK ->
            let e := error_reply msg code calls in
            (reply_status e <> http.StatusOK ->
             http.header (writer e) !! "Content-Type"
               = Some ["text/plain; charset=utf-8"]
             /\ http.header (writer e) !! "X-Content-Type-Options" = Some ["nosniff"]
             /\ exists text, reply_body e = text +:+ http.newline)
            /\ (reply_status e = http.StatusOK -> http.header (writer e) = ∅))
    as Herror.
  { intros msg code calls Hcode. cbv zeta.
    destruct (error_reply_facts msg code calls) as (Hs & Hb & Ht & Hn).
    split.
    - intros _. split; [exact Ht|]. split; [exact Hn|]. now exists msg.
    - rewrite Hs. intros Hok. now elim Hcode. }
  assert (forall data calls,
            let e := data_reply data calls in
            (reply_status e <> http.StatusOK ->
             http.header (writer e) !! "Content-Type"
               = Some ["text/plain; charset=utf-8"]
             /\ http.header (writer e) !! "X-Content-Type-Options" = Some ["nosniff"]
             /\ exists text, reply_body e = text +:+ http.newline)
            /\ (reply_status e = http.StatusOK -> http.header (writer e) = ∅))
    as Hdata.
  { intros data calls. cbv zeta.
    destruct (data_reply_facts data calls) as (Hs & _ & Hh).
    split; [intros Hne; now elim Hne | intros _; exact Hh]. }
  destruct (serve_protected_cases provider json_Marshal now r Hroute)
    as [[_ He]|(token & Hauth & [(err & _ & He)|(resp & Hanswer & Hcases)])].
  - rewrite He. now apply Herror.
  - rewrite He. now apply Herror.
  - destruct Hcases as [(_ & data & _ & He)|[(_ & err & _ & He)
                       |[(_ & _ & He)|(_ & _ & He)]]]; rewrite He;
      first [apply Hdata | now apply Herror].
Qed.

Lemma protected_reply_headers_witness :
  let alice := user_response (oidc.AnyString "alice@example.com") in
  let ok := serve (always (Ok alice)) (marshals_to "{username:alice}") ""
              (request ["Bearer t0k"] protectedURL []) in
  let denied := serve (always (Ok alice)) (marshals_to "{username:alice}") ""
                  (claim_request "Bearer t0k" "username" "bob") in
  http.header (writer ok) = ∅
  /\ http.header (writer denied) !! "Content-Type"
     = Some ["text/plain; charset=utf-8"].
Proof.
  cbv zeta. split.
  - apply (protected_reply_headers
             (always (Ok (user_response (oidc.AnyString "alice@example.com"))))
             (marshals_to "{username:alice}") ""
             (request ["Bearer t0k"] protectedURL []) (or_introl eq_refl)).
    reflexivity.
  - apply (protected_reply_headers
             (always (Ok (user_response (oidc.AnyString "alice@example.com"))))
             (marshals_to "{username:alice}") ""
             (claim_request "Bearer t0k" "username" "bob") (or_intror eq_refl)).
    discriminate.
Defined.

(** ** What the handlers do not look at *)

(** X9: of a successful introspection response the claim route reads the
    requested claim and nothing else: two responses that agree on that one
    claim get the same reply, whatever their other claims and their active
    flags are, and whatever the marshaller and the clock would give. *)
Theorem claim_route_reads_one_claim
    (provider1 provider2 : rs.ResourceServer)
    (json_Marshal1 json_Marshal2 : oidc.IntrospectionResponse -> result string)
    (now1 now2 : string) (r : chi.Request) (token : string)
    (resp1 resp2 : oidc.IntrospectionResponse) :
  chi.RoutePattern r = protectedClaimURL ->
  authorization r = "Bearer " +:+ token ->
  provider1 token = Ok resp1 ->
  provider2 token = Ok resp2 ->
  oidc.Claims resp1 !! chi.URLParam r "claim"
  = oidc.Claims resp2 !! chi.URLParam r "claim" ->
  serve provider1 json_Marshal1 now1 r = serve provider2 json_Marshal2 now2 r.
Proof.
  intros Hroute Hauth Hanswer1 Hanswer2 Hsame.
  rewrite (serve_claim_introspected _ _ _ _ _ _ Hroute Hauth Hanswer1).
  rewrite (serve_claim_introspected _ _ _ _ _ _ Hroute Hauth Hanswer2).
  unfold claim_outcome, oidc.index. now rewrite Hsame.
Qed.

Lemma claim_route_reads_one_claim_witness :
  let plain := user_response (oidc.AnyString "alice") in
  let richer :=
    {| oidc.Active := false;
       oidc.Claims := {[ "username" := oidc.AnyString "alice";
                         "admin" := oidc.AnyBool true ]} |} in
  let r := claim_request "Bearer t0k" "username" "alice" in
  serve (always (Ok plain)) (marshals_to "{}") "10:00" r
  = serve (always (Ok richer)) (fun _ => Err "json: unsupported value") "22:00" r.
Proof.
  cbv zeta.
  apply (claim_route_reads_one_claim
           (always (Ok (user_response (oidc.AnyString "alice"))))
           (always (Ok {| oidc.Active := false;
                          oidc.Claims := {[ "username" := oidc.AnyString "alice";
                                            "admin" := oidc.AnyBool true ]} |}))
           (marshals_to "{}") (fun _ => Err "json: unsupported value")
           "10:00" "22:00" (claim_request "Bearer t0k" "username" "alice") "t0k"
           (user_response (oidc.AnyString "alice"))
           {| oidc.Active := false;
              oidc.Claims := {[ "username" := oidc.AnyString "alice";
                                "admin" := oidc.AnyBool true ]} |}
           eq_refl eq_refl eq_refl eq_refl).
  reflexivity.
Defined.

(** X10: until introspection has succeeded the two protected routes behave
    alike: for the same authorization header, a header without the bearer
    prefix or a token whose introspection fails gets the same reply and
    causes the same calls on [/protected] and on the claim route, whatever
    claim and value the path names. *)
Theorem protected_routes_deny_alike
    (provider : rs.ResourceServer)
    (json_Marshal : oidc.IntrospectionResponse -> result string)
    (now : string) (r1 r2 : chi.Request) :
  chi.RoutePattern r1 = protectedURL ->
  chi.RoutePattern r2 = protectedClaimURL ->
  authorization r1 = authorization r2 ->
  (HasPrefix (authorization r1) "Bearer " = false
   \/ exists token err, authorization r1 = "Bearer " +:+ token
                        /\ provider token = Err err) ->
  serve provider json_Marshal now r1 = serve provider json_Marshal now r2.
Proof.
  intros Hroute1 Hroute2 Hauth [Hprefix|(token & err & Htoken & Hanswer)].
  - rewrite (serve_rejected _ _ _ r1 (or_introl Hroute1) Hprefix).
    rewrite Hauth in Hprefix.
    rewrite (serve_rejected _ _ _ r2 (or_intror Hroute2) Hprefix).
    now rewrite Hauth.
  - rewrite (serve_introspection_failed _ _ _ r1 token err
               (or_introl Hroute1) Htoken Hanswer).
    rewrite Hauth in Htoken.
    now rewrite (serve_introspection_failed _ _ _ r2 token err
                   (or_intror Hroute2) Htoken Hanswer).
Qed.

Lemma protected_routes_deny_alike_witness :
  let provider := always (Err "invalid_token") in
  serve provider (marshals_to "{}") "" (request ["Bearer t0k"] protectedURL [])
  = serve provider (marshals_to "{}") ""
      (claim_request "Bearer t0k" "username" "alice").
Proof.
  cbv zeta.
  apply (protected_routes_deny_alike (always (Err "invalid_token"))
           (marshals_to "{}") "" (request ["Bearer t0k"] protectedURL [])
           (claim_request "Bearer t0k" "username" "alice")
           eq_refl eq_refl eq_refl).
  right. exists "t0k", "invalid_token". split; reflexivity.
Defined.

(** X11: of the request's headers the handlers read one thing, the first value
    of the authorization header: two requests on the same route with the
    same path values and the same first authorization value get the same
    reply, whatever further authorization values and other headers they
    carry. *)
Theorem reply_reads_first_authorization_value
    (provider : rs.ResourceServer)
    (json_Marshal : oidc.IntrospectionResponse -> result string)
    (now : string) (r1 r2 : chi.Request) :
  chi.RoutePattern r1 = chi.RoutePattern r2 ->
  chi.URLParams r1 = chi.URLParams r2 ->
  authorization r1 = authorization r2 ->
  serve provider json_Marshal now r1 = serve provider json_Marshal now r2.
Proof.
  intros Hroute Hparams Hauth.
  assert (forall w, checkToken w r1 = checkToken w r2) as Hcheck.
  { intros w. unfold checkToken.
    change (http.Header_Get (chi.Header r1) "authorization")
      with (authorization r1).
    change (http.Header_Get (chi.Header r2) "authorization")
      with (authorization r2).
    now rewrite Hauth. }
  unfold serve, router, publicHandler, protectedHandler, protectedClaimHandler,
    chi.URLParam.
  now rewrite Hroute, Hparams, !Hcheck.
Qed.

Lemma reply_reads_first_authorization_value_witness :
  let alice := user_response (oidc.AnyString "alice") in
  let single := claim_request "Bearer t0k" "username" "alice" in
  let crowded :=
    {| chi.Header := {[ "Authorization" := ["Bearer t0k"; "Basic dXNlcg=="];
                        "Cookie" := ["session=1"] ]};
       chi.RoutePattern := protectedClaimURL;
       chi.URLParams := list_to_map [("claim", "username"); ("value", "alice")] |} in
  authorization crowded = "Bearer t0k"
  /\ serve (always (Ok alice)) (marshals_to "{}") "" single
     = serve (always (Ok alice)) (marshals_to "{}") "" crowded.
Proof.
  cbv zeta. split; [reflexivity|].
  apply (reply_reads_first_authorization_value
           (always (Ok (user_response (oidc.AnyString "alice"))))
           (marshals_to "{}") ""
           (claim_request "Bearer t0k" "username" "alice")
           {| chi.Header := {[ "Authorization" := ["Bearer t0k"; "Basic dXNlcg=="];
                               "Cookie" := ["session=1"] ]};
              chi.RoutePattern := protectedClaimURL;
              chi.URLParams :=
                list_to_map [("claim", "username"); ("value", "alice")] |});
    vm_compute; reflexivity.
Defined.
